(** * EB bill calculator: slab allocation and surcharges

    A shallow embedding of [calculate_bill], [prompt_float] and [main] from
    [eb_bill_calculator.py], with the properties the specification states
    about them.

    The Python code is written once, over a small interface of numeric
    operations ([Number]), and run over two number systems:

    - IEEE 754 binary64 ([float]), the numbers Python computes with, with
      their infinities, NaN and rounding; the properties of the code are
      stated for these, or for every number system at once;
    - exact rationals ([Q]), the arithmetic the specification has in mind
      ("real"), in which the worked example is evaluated as well.

    [round(x, 2)] rounds the exact value of [x] to the nearest hundredth,
    ties to the even hundredth, in both.

    [calculate_bill] is embedded as [main] calls it: the consumption, the
    rates, the fixed charge and the percentages are floats, the upper limits
    of the slabs are integers.  On such arguments no operation of the
    function raises, as long as the limits are within the range of the
    floats (an integer past it raises [OverflowError] when it meets a
    float), so the embedding is a total function.  [int()], which [main]
    applies to what is typed as an upper limit, raises on an infinity and on
    NaN; it is embedded with [option]. *)

From Stdlib Require Import ZArith QArith Qround Lqa Lia List String Bool.
From Stdlib Require Import DecimalString Floats.
From Stdlib Require Import Qpower.
Import ListNotations.

Set Implicit Arguments.

(** ** The numeric interface *)

(** What [calculate_bill] asks of its numbers.  [of_int] is the conversion
    Python applies to an [int] operand that meets a [float]; the embedding
    converts before a comparison as well, where Python compares the integer
    itself, which is the same as long as the conversion is exact. *)
Class Number (N : Type) : Type := {
  of_int : Z -> N;
  num_add : N -> N -> N;
  num_sub : N -> N -> N;
  num_mul : N -> N -> N;
  num_div : N -> N -> N;
  num_ltb : N -> N -> bool;
  num_leb : N -> N -> bool;
  round2 : N -> N
}.

Declare Scope num_scope.
Delimit Scope num_scope with num.
Infix "+" := num_add : num_scope.
Infix "-" := num_sub : num_scope.
Infix "*" := num_mul : num_scope.
Infix "/" := num_div : num_scope.
Infix "<?" := num_ltb : num_scope.
Infix "<=?" := num_leb : num_scope.

(** ** Data model *)

(** [class Slab]: [upto] is the upper limit of the slab in units, [0] for
    no upper limit; [rate] is the rate per unit. *)
Record Slab (N : Type) : Type := mkSlab {
  upto : Z;
  rate : N
}.

(** One entry of [slab_details]. *)
Record SlabDetail (N : Type) : Type := mkDetail {
  d_slab_range : string;
  d_units : N;
  d_rate : N;
  d_charge : N
}.

(** The dict [calculate_bill] returns. *)
Record Bill (N : Type) : Type := mkBill {
  units : N;
  slab_details : list (SlabDetail N);
  energy_charge : N;
  fixed_charge : N;
  duty_pct : N;
  duty : N;
  gst_pct : N;
  gst : N;
  subtotal : N;
  total_bill : N
}.

(** The local variables the [for] loop updates. *)
Record LoopState (N : Type) : Type := mkState {
  st_remaining : N;
  st_energy_charge : N;
  st_slab_details : list (SlabDetail N);
  st_prev_limit : Z
}.

Unset Implicit Arguments.

(** ** calculate_bill *)

Section Calculator.
Context {N : Type} `{Number N}.
Local Open Scope num_scope.

(** [max(a, b)] of two arguments: the first one unless the second is
    strictly greater. *)
Definition py_max (a b : N) : N := if a <? b then b else a.

(** [min(a, b)] of two arguments: the first one unless the second is
    strictly smaller. *)
Definition py_min (a b : N) : N := if b <? a then b else a.

Definition string_of_Z (z : Z) : string := NilZero.string_of_int (Z.to_int z).

(** [f"{prev_limit+1}-{slab.upto if slab.upto!=0 else 'above'}"] *)
Definition slab_range (prev_limit : Z) (slab : Slab N) : string :=
  (string_of_Z (prev_limit + 1) ++ "-" ++
   (if (upto slab =? 0)%Z then "above" else string_of_Z (upto slab)))%string.

Definition units_in_slab (remaining : N) (prev_limit : Z) (slab : Slab N) : N :=
  if (upto slab =? 0)%Z then
    py_max (of_int 0) remaining
  else
    let slab_capacity := (upto slab - prev_limit)%Z in
    py_max (of_int 0) (py_min remaining (of_int slab_capacity)).

(** The body of the loop, up to the test that may leave it. *)
Definition loop_body (slab : Slab N) (st : LoopState N) : LoopState N :=
  let u := units_in_slab (st_remaining st) (st_prev_limit st) slab in
  let charge := u * rate slab in
  {| st_slab_details :=
       st_slab_details st ++
       [ {| d_slab_range := slab_range (st_prev_limit st) slab;
            d_units := u;
            d_rate := rate slab;
            d_charge := round2 charge |} ];
     st_energy_charge := st_energy_charge st + charge;
     st_remaining := st_remaining st - u;
     st_prev_limit := upto slab |}.

(** [for slab in slabs: ...; if remaining <= 0: break] *)
Fixpoint bill_loop (slabs : list (Slab N)) (st : LoopState N) : LoopState N :=
  match slabs with
  | [] => st
  | slab :: rest =>
      let st' := loop_body slab st in
      if st_remaining st' <=? of_int 0 then st' else bill_loop rest st'
  end.

Definition initial_state (units : N) : LoopState N :=
  {| st_remaining := units;
     st_energy_charge := of_int 0;
     st_slab_details := [];
     st_prev_limit := 0 |}.

Definition calculate_bill (units : N) (slabs : list (Slab N))
           (fixed_charge duty_pct gst_pct : N) : Bill N :=
  let st := bill_loop slabs (initial_state units) in
  let energy_charge := round2 (st_energy_charge st) in
  let duty := round2 ((duty_pct / of_int 100) * energy_charge) in
  let subtotal := round2 (energy_charge + duty + fixed_charge) in
  let gst := round2 ((gst_pct / of_int 100) * subtotal) in
  let total_bill := round2 (subtotal + gst) in
  {| units := units;
     slab_details := st_slab_details st;
     energy_charge := energy_charge;
     fixed_charge := round2 fixed_charge;
     duty_pct := duty_pct;
     duty := duty;
     gst_pct := gst_pct;
     gst := gst;
     subtotal := subtotal;
     total_bill := total_bill |}.

(** The slabs [main] uses by default. *)
Definition default_slabs : list (Slab N) :=
  [ mkSlab 100 (of_int 3);
    mkSlab 200 (of_int 45 / of_int 10);
    mkSlab 300 (of_int 6);
    mkSlab 0 (of_int 8) ].

(** An amount given in hundredths. *)
Definition cents (n : Z) : N := of_int n / of_int 100.

(** The alternative the specification contrasts the code with: the same
    surcharges with a single rounding, of the total. *)
Definition total_rounded_once (units : N) (slabs : list (Slab N))
           (fixed_charge duty_pct gst_pct : N) : N :=
  let e := st_energy_charge (bill_loop slabs (initial_state units)) in
  let s := e + (duty_pct / of_int 100) * e + fixed_charge in
  round2 (s + (gst_pct / of_int 100) * s).
End Calculator.

(** ** Exact rationals *)

(** The integer nearest to [x], a tie going to the even one. *)
Definition round_half_even (x : Q) : Z :=
  let f := Qfloor x in
  match (x - inject_Z f ?= 1 # 2)%Q with
  | Lt => f
  | Gt => (f + 1)%Z
  | Eq => if Z.even f then f else (f + 1)%Z
  end.

(** [round(x, 2)] on an exact value. *)
Definition Qround2 (x : Q) : Q := round_half_even (x * 100) # 100.

#[export] Instance Q_Number : Number Q := {|
  of_int := inject_Z;
  num_add := Qplus;
  num_sub := Qminus;
  num_mul := Qmult;
  num_div := Qdiv;
  num_ltb := fun a b => negb (Qle_bool b a);
  num_leb := Qle_bool;
  round2 := Qround2
|}.

(** ** IEEE 754 binary64 *)

(** The exact value of a finite float. *)
Definition SF2Q (s : spec_float) : Q :=
  match s with
  | S754_finite sg m e =>
      let a := match e with
               | Zneg p => Zpos m # (2 ^ p)
               | _ => inject_Z (Zpos m * 2 ^ e)
               end in
      if sg then Qopp a else a
  | _ => 0
  end.

(** The float nearest to the integer [z] (ties to even), as [float(z)];
    exact below 2^53.  Past the largest float Python raises [OverflowError]
    where this gives an infinity. *)
Definition float_of_int (z : Z) : float :=
  SF2Prim (binary_normalize prec emax z 0 false).

(** [round(x, 2)] of a float: the exact value of [x] is rounded to the
    nearest hundredth, ties to even, and that decimal is read back as the
    nearest float.  NaN, infinities and zeros round to themselves. *)
Definition float_round2 (x : float) : float :=
  match Prim2SF x with
  | S754_finite sg _ _ =>
      match round_half_even (SF2Q (Prim2SF x) * 100) with
      | Z0 => if sg then neg_zero else zero
      | Zpos p =>
          SF2Prim (SFdiv prec emax (S754_finite false p 0) (S754_finite false 100 0))
      | Zneg p =>
          SF2Prim (SFdiv prec emax (S754_finite true p 0) (S754_finite false 100 0))
      end
  | _ => x
  end.

#[export] Instance float_Number : Number float := {|
  of_int := float_of_int;
  num_add := PrimFloat.add;
  num_sub := PrimFloat.sub;
  num_mul := PrimFloat.mul;
  num_div := PrimFloat.div;
  num_ltb := PrimFloat.ltb;
  num_leb := PrimFloat.leb;
  round2 := float_round2
|}.


(** ** The input layer *)

(** A line typed at a prompt, as [prompt_float] tells them apart: empty once
    stripped, read by [float()] as a value, or refused by [float()]. *)
Inductive Line (N : Type) : Type :=
| Blank
| Numeric (val : N)
| Malformed.
Arguments Blank {N}.
Arguments Numeric {N} val.
Arguments Malformed {N}.

Section InputLayer.
Context {N : Type} `{Number N}.
Local Open Scope num_scope.

(** [prompt_float] over the lines still to be typed: the value returned
    and the lines left, or [None] when the input ends before a line is
    accepted.  An empty line gives the default when there is one and is
    refused by [float()] otherwise; a negative value is asked again. *)
Fixpoint prompt_float (lines : list (Line N)) (default : option N)
  : option (N * list (Line N)) :=
  match lines with
  | [] => None
  | raw :: rest =>
      match raw, default with
      | Blank, Some d => Some (d, rest)
      | Blank, None => prompt_float rest default
      | Numeric val, _ =>
          if val <? of_int 0 then prompt_float rest default
          else Some (val, rest)
      | Malformed, _ => prompt_float rest default
      end
  end.
End InputLayer.

(** ** The records of a run *)

Section Trace.
Context {N : Type} `{Number N}.
Local Open Scope num_scope.

(** The record the loop appends for [slab]. *)
Definition detail_of (remaining : N) (prev_limit : Z) (slab : Slab N) : SlabDetail N :=
  let u := units_in_slab remaining prev_limit slab in
  {| d_slab_range := slab_range prev_limit slab;
     d_units := u;
     d_rate := rate slab;
     d_charge := round2 (u * rate slab) |}.

(** The records the loop appends, from the state it is entered in. *)
Fixpoint records (slabs : list (Slab N)) (remaining : N) (prev_limit : Z)
  : list (SlabDetail N) :=
  match slabs with
  | [] => []
  | slab :: rest =>
      let u := units_in_slab remaining prev_limit slab in
      detail_of remaining prev_limit slab ::
      (if remaining - u <=? of_int 0 then []
       else records rest (remaining - u) (upto slab))
  end.

(** [remaining] when the loop reaches its [i]-th slab, from the records
    before it. *)
Definition remaining_before (units : N) (ds : list (SlabDetail N)) (i : nat) : N :=
  fold_left (fun r d => r - d_units d) (firstn i ds) units.

(** [prev_limit] when the loop reaches its [i]-th slab. *)
Fixpoint prev_limit_before (prev_limit : Z) (slabs : list (Slab N)) (i : nat) : Z :=
  match i, slabs with
  | S j, s :: rest => prev_limit_before (upto s) rest j
  | _, _ => prev_limit
  end.

(** The last slab of the list has no upper limit. *)
Fixpoint ends_unbounded (slabs : list (Slab N)) : bool :=
  match slabs with
  | [] => false
  | [s] => (upto s =? 0)%Z
  | _ :: rest => ends_unbounded rest
  end.

(** Upper bounds strictly increasing from [prev_limit], a slab without
    upper limit only in the last place. *)
Fixpoint well_ordered_from (prev_limit : Z) (slabs : list (Slab N)) : bool :=
  match slabs with
  | [] => true
  | s :: rest =>
      if (upto s =? 0)%Z then
        match rest with [] => true | _ :: _ => false end
      else (prev_limit <? upto s)%Z && well_ordered_from (upto s) rest
  end.

Definition well_ordered (slabs : list (Slab N)) : bool := well_ordered_from 0 slabs.
End Trace.

(** ** What the input layer accepts *)

Section Accepted.
Context {N : Type} `{Number N}.
Local Open Scope num_scope.

(** The value [prompt_float] returns on a line, [None] when it asks again:
    the default on an empty line when there is one, a number typed unless
    it compares below zero. *)
Definition accepted (default : option N) (raw : Line N) : option N :=
  match raw, default with
  | Blank, Some d => Some d
  | Numeric val, _ => if val <? of_int 0 then None else Some val
  | _, _ => None
  end.
End Accepted.

(** ** Quantities of a run *)

Section Run.
Context {N : Type} `{Number N}.
Local Open Scope num_scope.

(** [energy_charge] as the loop accumulates it: the unrounded charges,
    added in the order of the entries. *)
Definition accumulated (start : N) (ds : list (SlabDetail N)) : N :=
  fold_left (fun acc d => acc + d_units d * d_rate d) ds start.

(** The loop has left the slabs [pre] through [break]. *)
Definition stopped_in (pre : list (Slab N)) (st : LoopState N) : bool :=
  match pre with
  | [] => false
  | _ :: _ => st_remaining (bill_loop pre st) <=? of_int 0
  end.

(** Every slab is bounded and is reached with more remaining than its
    capacity: the slabs are used up before the consumption is. *)
Fixpoint saturates (slabs : list (Slab N)) (remaining : N) (prev_limit : Z) : bool :=
  match slabs with
  | [] => true
  | slab :: rest =>
      negb (upto slab =? 0)%Z
      && (of_int (upto slab - prev_limit) <? remaining)
      && match rest with
         | [] => true
         | _ :: _ =>
             let u := units_in_slab remaining prev_limit slab in
             negb (remaining - u <=? of_int 0)
             && saturates rest (remaining - u) (upto slab)
         end
  end.

(** What slabs used up hold: [max(0, capacity)] each. *)
Fixpoint filled (slabs : list (Slab N)) (prev_limit : Z) : list N :=
  match slabs with
  | [] => []
  | slab :: rest =>
      py_max (of_int 0) (of_int (upto slab - prev_limit)) :: filled rest (upto slab)
  end.

(** Invalid input in the words of the specification: negative consumption,
    a negative rate, charge or percentage, or slabs out of order. *)
Definition invalid_input (units : N) (slabs : list (Slab N))
           (fixed_charge duty_pct gst_pct : N) : bool :=
  (units <? of_int 0)
  || existsb (fun s => rate s <? of_int 0) slabs
  || (fixed_charge <? of_int 0)
  || (duty_pct <? of_int 0)
  || (gst_pct <? of_int 0)
  || negb (well_ordered slabs).
End Run.

(** ** Exact values of floats *)

(** The exact value of a float, 0 for an infinity or NaN. *)
Definition val (x : float) : Q := SF2Q (Prim2SF x).

(** [x - y] is a finite float and is the exact difference. *)
Definition exact_sub (x y : float) : bool :=
  is_finite (x - y)%float && Qeq_bool (val (x - y)%float) (val x - val y).

(** No [remaining -= units_in_slab] of the run rounds. *)
Fixpoint subtractions_exact (slabs : list (Slab float)) (remaining : float)
         (prev_limit : Z) : bool :=
  match slabs with
  | [] => true
  | slab :: rest =>
      let u := units_in_slab remaining prev_limit slab in
      exact_sub remaining u
      && (if (remaining - u <=? zero)%float then true
          else subtractions_exact rest (remaining - u)%float (upto slab))
  end.

(** The units of the entries, added up exactly. *)
Definition allocated (ds : list (SlabDetail float)) : Q :=
  fold_right (fun d acc => val (d_units d) + acc) 0 ds.

(** ** Totals in order *)

(** The total payable for a whole number of units on the tariff [main]
    offers: the default slabs, a fixed charge of 50, duty 5% and GST 5%. *)
Definition default_total (n : Z) : float :=
  total_bill (calculate_bill (of_int n) default_slabs (of_int 50) (of_int 5) (of_int 5)).

(** The totals for 0, 1, ..., [count - 1] units. *)
Definition default_totals (count : nat) : list float :=
  map (fun k => default_total (Z.of_nat k)) (seq 0 count).

(** Every element compares [<=] with itself and with every element after
    it. *)
Fixpoint nondecreasing (ts : list float) : bool :=
  match ts with
  | [] => true
  | a :: rest => forallb (fun b => (a <=? b)%float) (a :: rest) && nondecreasing rest
  end.

(** ** main *)

(** [int(x)] of a float: the integer part, towards zero; [None] for an
    infinity ([OverflowError]) or NaN ([ValueError]). *)
Definition float_to_int (x : float) : option Z :=
  match Prim2SF x with
  | S754_zero _ => Some 0%Z
  | S754_finite sg m e =>
      let a := match e with
               | Zneg p => (Zpos m / 2 ^ Zpos p)%Z
               | _ => (Zpos m * 2 ^ e)%Z
               end in
      Some (if sg then (- a)%Z else a)
  | _ => None
  end.

Section Main.
Context {N : Type} `{Number N}.
Variable to_int : N -> option Z.

(** The loop of [main] that asks for slabs, one upper limit and one rate
    per turn, until an upper limit of 0.  A turn takes at least two lines,
    so as many turns as there are lines is enough ([read_slabs]); [None]
    when the input ends first or [int()] raises. *)
Fixpoint read_slabs_loop (turns : nat) (lines : list (Line N)) (slabs : list (Slab N))
  : option (list (Slab N) * list (Line N)) :=
  match turns with
  | O => None
  | S turns' =>
      match prompt_float lines (Some (of_int 0)) with
      | None => None
      | Some (x, lines1) =>
          match to_int x with
          | None => None
          | Some upto =>
              match prompt_float lines1 (Some (of_int 1)) with
              | None => None
              | Some (rate, lines2) =>
                  let slabs' := slabs ++ [mkSlab upto rate] in
                  if (upto =? 0)%Z then Some (slabs', lines2)
                  else read_slabs_loop turns' lines2 slabs'
              end
          end
      end
  end.

Definition read_slabs (lines : list (Line N)) : option (list (Slab N) * list (Line N)) :=
  read_slabs_loop (List.length lines) lines [].

(** [main] up to the call of [print_breakdown]: the bill it prints, or
    [None] when the input ends before the last prompt or [int()] raises.
    [lines] are the lines typed at the numeric prompts; [use_defaults] is the
    outcome of the test on the answer to "Use default slabs?", which is read
    after the units and is not one of [lines]. *)
Definition main (use_defaults : bool) (lines : list (Line N)) : option (Bill N) :=
  match prompt_float lines None with
  | None => None
  | Some (units, lines1) =>
      match (if use_defaults then Some (default_slabs, lines1) else read_slabs lines1) with
      | None => None
      | Some (slabs, lines2) =>
          match prompt_float lines2 (Some (of_int 50)) with
          | None => None
          | Some (fixed, lines3) =>
              match prompt_float lines3 (Some (of_int 5)) with
              | None => None
              | Some (duty, lines4) =>
                  match prompt_float lines4 (Some (of_int 5)) with
                  | None => None
                  | Some (gst, _) => Some (calculate_bill units slabs fixed duty gst)
                  end
              end
          end
      end
  end.
End Main.

(** * Properties of the code *)

(** ** Exact rationals: allocation to one slab *)

Local Open Scope Q_scope.

(** Unfolds the numeric interface at [Q]. *)
Ltac q_ops :=
  cbn [of_int num_add num_sub num_mul num_div num_ltb num_leb round2 Q_Number] in *.

(** Turns boolean comparisons in the context into inequalities. *)
Ltac q_bool :=
  repeat match goal with
  | H : Qle_bool _ _ = true |- _ => apply Qle_bool_iff in H
  | H : Qle_bool ?a ?b = false |- _ =>
      let L := fresh "L" in
      assert (L : b < a)
        by (apply Qnot_le_lt; intros L; apply (proj2 (Qle_bool_iff a b)) in L; congruence);
      clear H
  end.

(** Splits on the comparisons a goal branches on. *)
Ltac q_cases :=
  repeat match goal with
  | |- context [Qle_bool ?a ?b] =>
      lazymatch constr:((a, b)) with
      | context [Qle_bool _ _] => fail
      | _ => let E := fresh "E" in destruct (Qle_bool a b) eqn:E; cbn [negb]
      end
  end; q_bool.

Lemma units_in_slab_nonneg (remaining : Q) (prev_limit : Z) (slab : Slab Q) :
  0 <= units_in_slab remaining prev_limit slab.
Proof.
  unfold units_in_slab, py_max, py_min; q_ops.
  destruct (upto slab =? 0)%Z; q_cases; change (inject_Z 0) with 0 in *; lra.
Qed.

Lemma units_in_slab_le_remaining (remaining : Q) (prev_limit : Z) (slab : Slab Q) :
  0 <= remaining -> units_in_slab remaining prev_limit slab <= remaining.
Proof.
  intros Hr. unfold units_in_slab, py_max, py_min; q_ops.
  destruct (upto slab =? 0)%Z; q_cases; change (inject_Z 0) with 0 in *; lra.
Qed.

Lemma units_in_slab_le_capacity (remaining : Q) (prev_limit : Z) (slab : Slab Q) :
  (prev_limit <= upto slab)%Z -> upto slab <> 0%Z ->
  units_in_slab remaining prev_limit slab <= inject_Z (upto slab - prev_limit).
Proof.
  intros Hc Hu. unfold units_in_slab, py_max, py_min; q_ops.
  apply Z.eqb_neq in Hu. rewrite Hu.
  assert (0 <= inject_Z (upto slab - prev_limit))
    by (change 0 with (inject_Z 0); rewrite <- Zle_Qle; lia).
  q_cases; change (inject_Z 0) with 0 in *; lra.
Qed.

(** ** The loop and its records *)

Section LoopRecords.
Context {N : Type} `{Number N}.

(** The loop appends [records] to the details it is entered with. *)
Lemma bill_loop_details (slabs : list (Slab N)) : forall st : LoopState N,
  st_slab_details (bill_loop slabs st) =
  st_slab_details st ++ records slabs (st_remaining st) (st_prev_limit st).
Proof.
  induction slabs as [| slab rest IH]; intros st; cbn [bill_loop records].
  - symmetry. apply app_nil_r.
  - cbn zeta.
    change (st_remaining (loop_body slab st))
      with (num_sub (st_remaining st)
              (units_in_slab (st_remaining st) (st_prev_limit st) slab)).
    destruct (num_leb _ (of_int 0)).
    + reflexivity.
    + rewrite IH. cbn [loop_body st_slab_details st_remaining st_prev_limit].
      rewrite <- app_assoc. reflexivity.
Qed.

Lemma calculate_bill_details (u : N) (slabs : list (Slab N)) (f d g : N) :
  slab_details (calculate_bill u slabs f d g) = records slabs u 0.
Proof.
  unfold calculate_bill. cbn [slab_details]. rewrite bill_loop_details. reflexivity.
Qed.

Lemma records_length (slabs : list (Slab N)) : forall (remaining : N) (prev_limit : Z),
  (List.length (records slabs remaining prev_limit) <= List.length slabs)%nat.
Proof.
  induction slabs as [| slab rest IH]; intros remaining prev_limit; cbn [records List.length].
  - lia.
  - destruct (num_leb _ (of_int 0)); cbn [List.length]; [lia |].
    specialize (IH (num_sub remaining (units_in_slab remaining prev_limit slab)) (upto slab)).
    lia.
Qed.

(** The [i]-th record is the allocation to the [i]-th slab, made in the
    state the loop has reached there. *)
Lemma records_nth (slabs : list (Slab N)) :
  forall (remaining : N) (prev_limit : Z) (i : nat) (r : SlabDetail N),
  nth_error (records slabs remaining prev_limit) i = Some r ->
  exists s, nth_error slabs i = Some s /\
    r = detail_of (remaining_before remaining (records slabs remaining prev_limit) i)
                  (prev_limit_before prev_limit slabs i) s.
Proof.
  induction slabs as [| slab rest IH]; intros remaining prev_limit i r Hr;
    cbn [records] in *.
  - destruct i; discriminate.
  - destruct i as [| j]; cbn [nth_error] in Hr.
    + injection Hr as <-. exists slab. split; reflexivity.
    + unfold remaining_before. cbn [firstn fold_left prev_limit_before nth_error].
      cbn [detail_of d_units].
      destruct (num_leb _ (of_int 0)).
      * destruct j; discriminate.
      * apply IH in Hr. exact Hr.
Qed.

(** The surcharges, each from the rounded amounts before it. *)
Lemma calculate_bill_steps (u : N) (slabs : list (Slab N)) (f d g : N) :
  let b := calculate_bill u slabs f d g in
  duty b = round2 (num_mul (num_div d (of_int 100)) (energy_charge b)) /\
  subtotal b = round2 (num_add (num_add (energy_charge b) (duty b)) f) /\
  gst b = round2 (num_mul (num_div g (of_int 100)) (subtotal b)) /\
  total_bill b = round2 (num_add (subtotal b) (gst b)).
Proof. repeat split. Qed.

End LoopRecords.

(** ** Allocation stays within capacity *)

Lemma remaining_before_nonneg (slabs : list (Slab Q)) :
  forall (remaining : Q) (prev_limit : Z) (i : nat),
  0 <= remaining ->
  0 <= remaining_before remaining (records slabs remaining prev_limit) i.
Proof.
  induction slabs as [| slab rest IH]; intros remaining prev_limit i Hr; cbn [records].
  - unfold remaining_before. destruct i; exact Hr.
  - destruct i as [| j]; [exact Hr |].
    unfold remaining_before. cbn [firstn fold_left detail_of d_units].
    pose proof (units_in_slab_le_remaining remaining prev_limit slab Hr) as H1.
    q_ops.
    assert (Hr' : 0 <= remaining - units_in_slab remaining prev_limit slab) by lra.
    destruct (Qle_bool _ (inject_Z 0)).
    + destruct j; exact Hr'.
    + apply (IH _ (upto slab) j Hr').
Qed.

(** In a well-ordered list each bounded slab lies above the limit before it. *)
Lemma well_ordered_prev_limit {N : Type} (slabs : list (Slab N)) :
  forall (prev_limit : Z) (i : nat) (s : Slab N),
  well_ordered_from prev_limit slabs = true ->
  nth_error slabs i = Some s ->
  upto s <> 0%Z ->
  (prev_limit_before prev_limit slabs i < upto s)%Z.
Proof.
  induction slabs as [| s0 rest IH]; intros prev_limit i s Hw Hn Hu.
  - destruct i; discriminate.
  - cbn [well_ordered_from] in Hw. destruct i as [| j]; cbn [nth_error] in Hn.
    + injection Hn as ->. apply Z.eqb_neq in Hu. rewrite Hu in Hw.
      apply andb_true_iff in Hw. destruct Hw as [Hw _]. apply Z.ltb_lt in Hw. exact Hw.
    + cbn [prev_limit_before]. destruct (upto s0 =? 0)%Z.
      * destruct rest; [destruct j; discriminate | discriminate].
      * apply andb_true_iff in Hw. destruct Hw as [_ Hw]. apply (IH _ _ _ Hw Hn Hu).
Qed.



(** ** The worked example *)

(** C6, as the code has it.  For 250 units on the default slabs, fixed
    charge 50, duty 5% and GST 5%: 100, 100 and 50 units are allocated, the
    energy charge is 1050.00, the duty 52.50, the subtotal 1152.50, the GST
    57.62 and the total 1210.12, over the rationals and in binary64 alike.
    The GST is 5% of 1152.50, which is 57.625 exactly in both, and the tie
    goes to the even hundredth. *)
Theorem default_bill_250 :
  let b := calculate_bill 250 default_slabs 50 5 5 in
  let bf := calculate_bill (N := float) (of_int 250) default_slabs
              (of_int 50) (of_int 5) (of_int 5) in
  map (@d_units Q) (slab_details b) = [100; 100; 50] /\
  energy_charge b == 1050 /\
  duty b == 5250 # 100 /\
  subtotal b == 115250 # 100 /\
  gst b == 5762 # 100 /\
  total_bill b == 121012 # 100 /\
  energy_charge bf = cents 105000 /\
  duty bf = cents 5250 /\
  subtotal bf = cents 115250 /\
  gst bf = cents 5762 /\
  total_bill bf = cents 121012.
Proof.
  cbv zeta. repeat split; vm_compute; reflexivity.
Qed.

(** C6 as stated fails: the GST is not 57.63 and the total is not 1210.13,
    over the rationals and in binary64. *)
Lemma default_bill_250_counterexample :
  ~ (energy_charge (calculate_bill 250 default_slabs 50 5 5) == 1050 /\
     duty (calculate_bill 250 default_slabs 50 5 5) == 5250 # 100 /\
     subtotal (calculate_bill 250 default_slabs 50 5 5) == 115250 # 100 /\
     gst (calculate_bill 250 default_slabs 50 5 5) == 5763 # 100 /\
     total_bill (calculate_bill 250 default_slabs 50 5 5) == 121013 # 100) /\
  PrimFloat.eqb
    (gst (calculate_bill (N := float) (of_int 250) default_slabs
            (of_int 50) (of_int 5) (of_int 5)))
    (cents 5763) = false /\
  PrimFloat.eqb
    (total_bill (calculate_bill (N := float) (of_int 250) default_slabs
                   (of_int 50) (of_int 5) (of_int 5)))
    (cents 121013) = false.
Proof.
  split; [| split; vm_compute; reflexivity].
  intros (_ & _ & _ & Hg & _). vm_compute in Hg. discriminate.
Qed.

(** ** Counterexamples to the specification as written *)

(** C4 as stated fails: a fixed charge of 0.1875 gives a subtotal of 0.19
    and a total of 0.20, not 0.1875 and 0.1875 x 1.05; so it is in binary64,
    where 0.1875 is exact. *)
Lemma zero_units_subtotal_counterexample :
  subtotal (calculate_bill 0 default_slabs (3 # 16) 5 5) == 19 # 100 /\
  ~ subtotal (calculate_bill 0 default_slabs (3 # 16) 5 5) == 3 # 16 /\
  total_bill (calculate_bill 0 default_slabs (3 # 16) 5 5) == 20 # 100 /\
  ~ total_bill (calculate_bill 0 default_slabs (3 # 16) 5 5) == (3 # 16) * (105 # 100) /\
  subtotal (calculate_bill (N := float) (of_int 0) default_slabs
              (of_int 3 / of_int 16)%num (of_int 5) (of_int 5)) = cents 19 /\
  PrimFloat.eqb (cents 19) (of_int 3 / of_int 16)%num = false.
Proof.
  repeat split; try (vm_compute; reflexivity); vm_compute; discriminate.
Qed.

(** With no negative rate or percentage the order can fail as well: 10^308
    units on the default slabs overflow the energy charge, [0.0 * inf] makes
    the duty NaN, and so the total, which compares with nothing. *)
Lemma total_bill_overflow :
  let t1 := total_bill (calculate_bill (N := float) (of_int 1) default_slabs
                          (of_int 50) (of_int 0) (of_int 5)) in
  let t2 := total_bill (calculate_bill (N := float) (of_int (10 ^ 308)) default_slabs
                          (of_int 50) (of_int 0) (of_int 5)) in
  t1 = cents 5565 /\ is_nan t2 = true /\ PrimFloat.leb t1 t2 = false.
Proof.
  cbn zeta. repeat split; vm_compute; reflexivity.
Qed.


(** ** prompt_float *)

Section PromptFloat.
Context {N : Type} `{Number N}.

(** Lines [prompt_float] asks again on are passed over. *)
Lemma prompt_float_skip (default : option N) (raw : Line N) (rest : list (Line N)) :
  accepted default raw = None ->
  prompt_float (raw :: rest) default = prompt_float rest default.
Proof.
  intros Ha. cbn [prompt_float]. destruct raw as [| val |]; cbn [accepted] in Ha.
  - destruct default; [discriminate | reflexivity].
  - destruct (num_ltb val (of_int 0)); [reflexivity | discriminate].
  - reflexivity.
Qed.

Lemma prompt_float_take (default : option N) (raw : Line N) (rest : list (Line N)) (v : N) :
  accepted default raw = Some v ->
  prompt_float (raw :: rest) default = Some (v, rest).
Proof.
  intros Ha. cbn [prompt_float]. destruct raw as [| val |]; cbn [accepted] in Ha.
  - destruct default; [injection Ha as <-; reflexivity | discriminate].
  - destruct (num_ltb val (of_int 0)); [discriminate | injection Ha as <-; reflexivity].
  - discriminate.
Qed.

(** What [prompt_float] returns comes from the first line it accepts, and
    the lines left are those after it. *)
Lemma prompt_float_some (default : option N) (lines : list (Line N)) :
  forall v rest, prompt_float lines default = Some (v, rest) ->
  exists skipped raw,
    lines = skipped ++ raw :: rest /\
    Forall (fun l => accepted default l = None) skipped /\
    accepted default raw = Some v.
Proof.
  induction lines as [| raw lines IH]; intros v rest Hp.
  - discriminate.
  - destruct (accepted default raw) as [w |] eqn:Ha.
    + rewrite (prompt_float_take default raw lines w Ha) in Hp. injection Hp as <- <-.
      exists [], raw. repeat split; [constructor | exact Ha].
    + rewrite (prompt_float_skip default raw lines Ha) in Hp.
      destruct (IH v rest Hp) as (skipped & raw' & -> & Hs & Hr).
      exists (raw :: skipped), raw'. repeat split; [constructor; assumption | exact Hr].
Qed.

Lemma prompt_float_none (default : option N) (lines : list (Line N)) :
  prompt_float lines default = None <->
  Forall (fun l => accepted default l = None) lines.
Proof.
  induction lines as [| raw lines IH].
  - split; [constructor | reflexivity].
  - destruct (accepted default raw) as [w |] eqn:Ha.
    + rewrite (prompt_float_take default raw lines w Ha). split; [discriminate |].
      intros Hf. inversion Hf; subst. congruence.
    + rewrite (prompt_float_skip default raw lines Ha). rewrite IH. split.
      * intros Hf. constructor; assumption.
      * intros Hf. inversion Hf; subst. assumption.
Qed.

(** X1. [prompt_float] asks again until a line is accepted: it returns the
    value of the first accepted line and leaves the lines after it, and it
    runs out of input exactly when no line is accepted.  A line is accepted
    when it is empty and there is a default, or holds a number that does not
    compare below zero. *)
Theorem prompt_float_first_accepted
        (default : option N) (skipped : list (Line N)) :
  Forall (fun l => accepted default l = None) skipped ->
  prompt_float skipped default = None /\
  (forall raw v rest, accepted default raw = Some v ->
     prompt_float (skipped ++ raw :: rest) default = Some (v, rest)) /\
  (forall lines v rest, prompt_float lines default = Some (v, rest) ->
     exists skipped' raw,
       lines = skipped' ++ raw :: rest /\
       Forall (fun l => accepted default l = None) skipped' /\
       accepted default raw = Some v).
Proof.
  intros Hs. split; [apply prompt_float_none; exact Hs |]. split.
  - intros raw v rest Ha. induction Hs as [| l skipped Hl Hs IH]; cbn [app].
    + apply prompt_float_take. exact Ha.
    + rewrite (prompt_float_skip default l _ Hl). exact IH.
  - intros lines. apply prompt_float_some.
Qed.

(** Every call takes at least one line. *)
Lemma prompt_float_shorter (default : option N) (lines : list (Line N)) :
  forall v rest, prompt_float lines default = Some (v, rest) ->
  (List.length rest < List.length lines)%nat.
Proof.
  intros v rest Hp. destruct (prompt_float_some default lines v rest Hp) as (sk & raw & -> & _).
  rewrite length_app. cbn [List.length]. lia.
Qed.
End PromptFloat.

Lemma prompt_float_first_accepted_witness :
  prompt_float [Malformed; Numeric (-3); Blank; Numeric (7 # 2); Numeric 1] None
  = Some (7 # 2, [Numeric 1]).
Proof.
  apply (proj1 (proj2 (@prompt_float_first_accepted Q _ None
                         [Malformed; Numeric (-3); Blank]
                         ltac:(repeat constructor)))
               (Numeric (7 # 2)) (7 # 2) [Numeric 1] eq_refl).
Defined.

(** ** Records and slabs, in any number system *)

Section RecordsAndSlabs.
Context {N : Type} `{Number N}.

(** X3. Whatever the numbers ([float] included), the [i]-th entry of
    [slab_details] belongs to the [i]-th slab: it carries that slab's rate
    and range, its units are the allocation made from what remained after the
    entries before it, and its charge is the rounded product of its units and
    rate.  There are never more entries than slabs. *)
Theorem slab_details_follow_slabs
        (u : N) (slabs : list (Slab N)) (f d g : N) (i : nat) (r : SlabDetail N) :
  nth_error (slab_details (calculate_bill u slabs f d g)) i = Some r ->
  (exists s,
     nth_error slabs i = Some s /\
     d_rate r = rate s /\
     d_slab_range r = slab_range (prev_limit_before 0 slabs i) s /\
     d_units r =
       units_in_slab
         (remaining_before u (slab_details (calculate_bill u slabs f d g)) i)
         (prev_limit_before 0 slabs i) s) /\
  d_charge r = round2 (num_mul (d_units r) (d_rate r)) /\
  (List.length (slab_details (calculate_bill u slabs f d g)) <= List.length slabs)%nat.
Proof.
  rewrite calculate_bill_details. intros Hr.
  destruct (records_nth slabs u 0 i r Hr) as (s & Hs & ->).
  split; [exists s; repeat split; exact Hs |].
  split; [reflexivity | apply records_length].
Qed.
End RecordsAndSlabs.

Lemma slab_details_follow_slabs_witness :
  d_rate (mkDetail "101-200" (float_of_int 100)
            (PrimFloat.div (float_of_int 45) (float_of_int 10)) (float_of_int 450))
  = PrimFloat.div (float_of_int 45) (float_of_int 10) /\
  d_charge (mkDetail "101-200" (float_of_int 100)
              (PrimFloat.div (float_of_int 45) (float_of_int 10)) (float_of_int 450))
  = float_round2
      (PrimFloat.mul (float_of_int 100) (PrimFloat.div (float_of_int 45) (float_of_int 10))).
Proof.
  assert (Hn : nth_error (slab_details (calculate_bill (N := float)
              (float_of_int 250) default_slabs
              (float_of_int 50) (float_of_int 5) (float_of_int 5))) 1%nat
           = Some (mkDetail "101-200" (float_of_int 100)
                        (PrimFloat.div (float_of_int 45) (float_of_int 10))
                        (float_of_int 450))) by (vm_compute; reflexivity).
  pose proof (@slab_details_follow_slabs float float_Number _ _ _ _ _ _ _ Hn) as Ht.
  destruct Ht as ((s & Hs & Hrate & _) & Hc & _).
  cbn [nth_error default_slabs] in Hs. injection Hs as <-.
  split; [exact Hrate | exact Hc].
Defined.

(** * Binary64 *)

(** ** Floats through their specification *)

(** Unfolds the numeric interface at [float]. *)
Ltac f_ops :=
  cbn [of_int num_add num_sub num_mul num_div num_ltb num_leb round2 float_Number] in *;
  change (float_of_int 0) with zero in *.

Lemma Prim2SF_zero : Prim2SF zero = S754_zero false.
Proof. reflexivity. Qed.

Lemma Prim2SF_infinity : Prim2SF infinity = S754_infinity false.
Proof. reflexivity. Qed.

Lemma SFcompare_finite_refl (s : bool) (m : positive) (e : Z) :
  SFcompare (S754_finite s m e) (S754_finite s m e) = Some Eq.
Proof.
  cbn [SFcompare]. rewrite Z.compare_refl, Pos.compare_cont_refl. destruct s; reflexivity.
Qed.

(** [is_finite]: a zero or a finite number, not an infinity, not NaN. *)
Lemma is_finite_spec (x : float) :
  is_finite x = match Prim2SF x with
                | S754_zero _ | S754_finite _ _ _ => true
                | _ => false
                end.
Proof.
  unfold is_finite, is_nan, is_infinity.
  rewrite !eqb_spec, abs_spec, Prim2SF_infinity.
  destruct (Prim2SF x) as [s | s | | s m e]; try reflexivity.
  - destruct s; reflexivity.
  - unfold SFeqb. rewrite SFcompare_finite_refl. reflexivity.
Qed.

(** [x == 0]: either zero. *)
Lemma is_zero_spec (x : float) :
  is_zero x = match Prim2SF x with
              | S754_zero _ => true
              | _ => false
              end.
Proof.
  unfold is_zero. rewrite eqb_spec, Prim2SF_zero.
  destruct (Prim2SF x) as [s | s | | s m e]; try reflexivity; destruct s; reflexivity.
Qed.

Lemma is_zero_zero : is_zero zero = true.
Proof. reflexivity. Qed.

(** Opens a goal on comparisons into the cases of the floats compared. *)
Ltac f_spec :=
  rewrite ?is_finite_spec, ?is_zero_spec, ?ltb_spec, ?leb_spec, ?sub_spec, ?mul_spec,
    ?add_spec, ?Prim2SF_zero in *;
  unfold SFltb, SFleb, SF64sub, SF64mul, SF64add in *.

Lemma sub_self_finite (s : bool) (m : positive) (e : Z) :
  SFsub prec emax (S754_finite s m e) (S754_finite s m e) = S754_zero false.
Proof.
  cbn [SFsub]. cbv zeta. rewrite Z.sub_diag. reflexivity.
Qed.

(** Taking [max(0, r)] from a finite [r] leaves nothing. *)
Lemma exhausts (r : float) :
  is_finite r = true ->
  (r - (if (zero <? r)%float then r else zero) <=? zero)%float = true.
Proof.
  intros Hf. destruct (zero <? r)%float eqn:Hp; revert Hf Hp; f_spec.
  - destruct (Prim2SF r) as [s | s | | s m e]; try discriminate.
    intros _ _. rewrite sub_self_finite. reflexivity.
  - destruct (Prim2SF r) as [s | s | | s m e]; cbn; try destruct s;
      first [congruence | intros; reflexivity].
Qed.

(** [0 * x] is a zero when [x] is finite, and NaN otherwise. *)
Lemma is_zero_zero_mul (x : float) : is_zero (zero * x)%float = is_finite x.
Proof.
  f_spec. destruct (Prim2SF x) as [s | s | | s m e]; reflexivity.
Qed.

Lemma is_zero_mul_zero (x z : float) :
  is_finite x = true -> is_zero z = true -> is_zero (x * z)%float = true.
Proof.
  f_spec. destruct (Prim2SF z) as [sz | sz | | sz mz ez]; try discriminate.
  destruct (Prim2SF x) as [s | s | | s m e]; try discriminate; reflexivity.
Qed.

(** [round(x, 2)] leaves zeros, infinities and NaN as they are. *)
Lemma float_round2_not_finite_number (x : float) :
  match Prim2SF x with S754_finite _ _ _ => False | _ => True end ->
  float_round2 x = x.
Proof.
  unfold float_round2. destruct (Prim2SF x); [reflexivity .. | contradiction].
Qed.

Lemma float_round2_zero (x : float) : is_zero x = true -> float_round2 x = x.
Proof.
  rewrite is_zero_spec. intros Hz. apply float_round2_not_finite_number.
  destruct (Prim2SF x); try discriminate; exact I.
Qed.

(** * The loop in any number system *)

Section Loop.
Context {N : Type} `{Number N}.

Lemma loop_body_remaining (slab : Slab N) (st : LoopState N) :
  st_remaining (loop_body slab st) =
  num_sub (st_remaining st) (units_in_slab (st_remaining st) (st_prev_limit st) slab).
Proof. reflexivity. Qed.

(** [energy_charge] before it is rounded: the charges of the entries,
    added to what the loop is entered with. *)
Lemma bill_loop_energy (slabs : list (Slab N)) : forall st : LoopState N,
  st_energy_charge (bill_loop slabs st) =
  accumulated (st_energy_charge st) (records slabs (st_remaining st) (st_prev_limit st)).
Proof.
  induction slabs as [| slab rest IH]; intros st; cbn [bill_loop records].
  - reflexivity.
  - cbn zeta. rewrite loop_body_remaining.
    unfold accumulated. cbn [fold_left detail_of d_units d_rate].
    destruct (num_leb _ (of_int 0)).
    + reflexivity.
    + rewrite IH. reflexivity.
Qed.

(** The slabs after a [break] are not looked at. *)
Lemma bill_loop_app (pre post : list (Slab N)) : forall st : LoopState N,
  bill_loop (pre ++ post) st =
  if stopped_in pre st then bill_loop pre st else bill_loop post (bill_loop pre st).
Proof.
  induction pre as [| s pre IH]; intros st.
  - reflexivity.
  - cbn [app]. unfold stopped_in. cbn [bill_loop]. cbn zeta.
    destruct (num_leb (st_remaining (loop_body s st)) (of_int 0)) eqn:E.
    + rewrite E. reflexivity.
    + rewrite IH. unfold stopped_in. destruct pre as [| s' pre'].
      * cbn [bill_loop]. rewrite E. reflexivity.
      * reflexivity.
Qed.

(** Without a [break] every slab has its entry. *)
Lemma records_not_stopped (pre : list (Slab N)) : forall st : LoopState N,
  stopped_in pre st = false ->
  List.length (st_slab_details (bill_loop pre st)) =
  (List.length (st_slab_details st) + List.length pre)%nat /\
  st_prev_limit (bill_loop pre st) = prev_limit_before (st_prev_limit st) pre (List.length pre).
Proof.
  induction pre as [| s pre IH]; intros st Hs.
  - cbn. split; [lia | reflexivity].
  - unfold stopped_in in Hs. cbn [bill_loop] in *. cbn zeta in *.
    destruct (num_leb (st_remaining (loop_body s st)) (of_int 0)) eqn:E.
    + congruence.
    + assert (Hs' : stopped_in pre (loop_body s st) = false).
      { unfold stopped_in. destruct pre; [reflexivity | exact Hs]. }
      destruct (IH _ Hs') as [IHl IHp]. rewrite IHl, IHp.
      cbn [loop_body st_slab_details st_prev_limit List.length prev_limit_before].
      rewrite length_app. cbn [List.length]. split; [lia | reflexivity].
Qed.

(** A bounded slab reached with more than its capacity takes its capacity. *)
Lemma units_in_slab_saturated (remaining : N) (prev_limit : Z) (slab : Slab N) :
  (upto slab =? 0)%Z = false ->
  num_ltb (of_int (upto slab - prev_limit)) remaining = true ->
  units_in_slab remaining prev_limit slab =
  py_max (of_int 0) (of_int (upto slab - prev_limit)).
Proof.
  intros Hu Hc. unfold units_in_slab, py_min. rewrite Hu, Hc. reflexivity.
Qed.

(** Slabs used up hold the same entries whatever was left to allocate. *)
Lemma records_saturated (slabs : list (Slab N)) :
  forall (r1 r2 : N) (prev_limit : Z),
  saturates slabs r1 prev_limit = true ->
  saturates slabs r2 prev_limit = true ->
  records slabs r1 prev_limit = records slabs r2 prev_limit /\
  map (@d_units N) (records slabs r1 prev_limit) = filled slabs prev_limit.
Proof.
  induction slabs as [| slab rest IH]; intros r1 r2 p H1 H2.
  - split; reflexivity.
  - cbn [saturates] in H1, H2.
    apply andb_true_iff in H1. destruct H1 as [H1 T1].
    apply andb_true_iff in H1. destruct H1 as [U1 C1].
    apply andb_true_iff in H2. destruct H2 as [H2 T2].
    apply andb_true_iff in H2. destruct H2 as [_ C2].
    apply negb_true_iff in U1.
    cbn [records]. cbn zeta. unfold detail_of.
    pose proof (units_in_slab_saturated r1 p slab U1 C1) as E1.
    pose proof (units_in_slab_saturated r2 p slab U1 C2) as E2.
    destruct rest as [| s' rest'].
    + cbn [records filled map d_units]. rewrite E1, E2.
      destruct (num_leb _ (of_int 0)), (num_leb _ (of_int 0)); split; reflexivity.
    + apply andb_true_iff in T1. destruct T1 as [B1 S1].
      apply andb_true_iff in T2. destruct T2 as [B2 S2].
      apply negb_true_iff in B1. apply negb_true_iff in B2.
      rewrite B1, B2.
      destruct (IH _ _ _ S1 S2) as [IHr IHf].
      rewrite IHr. cbn [map d_units]. rewrite <- IHr, IHf.
      cbn [filled]. rewrite E1, E2. split; reflexivity.
Qed.
End Loop.

(** ** Surcharges *)

(** C2. In every number system, binary64 included, [calculate_bill] rounds
    at each aggregate step: the energy charge is the rounded sum of the
    unrounded slab charges, added in the order of the entries; the duty is
    rounded from the rounded energy charge, the subtotal from the rounded
    energy charge, the rounded duty and the fixed charge, the GST from the
    rounded subtotal, the total from the rounded subtotal and GST.  This is
    not one rounding at the end: in binary64, 0.08 units at rate 1 with no
    fixed charge, duty 5% and GST 5% give a total of 0.08, where rounding
    the total alone would give 0.09. *)
Theorem calculate_bill_rounds_each_step
  {N : Type} `{Number N} (u : N) (slabs : list (Slab N)) (f d g : N) :
  let b := calculate_bill u slabs f d g in
  (energy_charge b = round2 (accumulated (of_int 0) (slab_details b)) /\
   duty b = round2 (num_mul (num_div d (of_int 100)) (energy_charge b)) /\
   subtotal b = round2 (num_add (num_add (energy_charge b) (duty b)) f) /\
   gst b = round2 (num_mul (num_div g (of_int 100)) (subtotal b)) /\
   total_bill b = round2 (num_add (subtotal b) (gst b))) /\
  (total_bill (calculate_bill (N := float) (cents 8) [mkSlab 0 (of_int 1)]
                 (of_int 0) (of_int 5) (of_int 5)) = cents 8 /\
   total_rounded_once (N := float) (cents 8) [mkSlab 0 (of_int 1)]
     (of_int 0) (of_int 5) (of_int 5) = cents 9 /\
   PrimFloat.eqb (cents 8) (cents 9) = false).
Proof.
  cbn zeta. split.
  - split; [| apply (calculate_bill_steps u slabs f d g)].
    rewrite calculate_bill_details. unfold calculate_bill. cbn [energy_charge].
    rewrite bill_loop_energy. reflexivity.
  - repeat split; vm_compute; reflexivity.
Qed.

(** ** Slabs used up *)



(** * The loop in binary64 *)

Lemma ltb_below_not_positive (r c : float) :
  (zero <? r)%float = false -> (c <? r)%float = true -> (zero <? c)%float = false.
Proof.
  f_spec.
  destruct (Prim2SF r) as [sr | sr | | sr mr er]; cbn; try destruct sr; try discriminate;
    destruct (Prim2SF c) as [sc | sc | | sc mc ec]; cbn; try destruct sc;
    first [congruence | intros; reflexivity].
Qed.

Lemma leb_zero_not_positive (r : float) :
  (r <=? zero)%float = true -> (zero <? r)%float = false.
Proof.
  f_spec. destruct (Prim2SF r) as [sr | sr | | sr mr er]; cbn; try destruct sr;
    first [congruence | intros; reflexivity].
Qed.

Lemma leb_minus_zero (r : float) :
  (r <=? zero)%float = true -> (r - zero <=? zero)%float = true.
Proof.
  f_spec. destruct (Prim2SF r) as [sr | sr | | sr mr er]; cbn; try destruct sr;
    first [congruence | intros; reflexivity].
Qed.

Lemma ltb_leb_zero (r : float) :
  (r <? zero)%float = true -> (r <=? zero)%float = true.
Proof.
  f_spec. destruct (Prim2SF r) as [sr | sr | | sr mr er]; cbn; try destruct sr;
    first [congruence | intros; reflexivity].
Qed.

Lemma is_zero_leb_zero (r : float) :
  is_zero r = true -> (r <=? zero)%float = true.
Proof.
  f_spec. destruct (Prim2SF r) as [sr | sr | | sr mr er]; cbn; try destruct sr;
    first [congruence | intros; reflexivity].
Qed.

(** [0.0 + z] is [0.0] for either zero [z]. *)
Lemma zero_add_zero (z : float) : is_zero z = true -> (zero + z)%float = zero.
Proof.
  intros Hz. apply Prim2SF_inj. revert Hz. f_spec.
  destruct (Prim2SF z) as [sz | sz | | sz mz ez]; try discriminate.
  destruct sz; reflexivity.
Qed.

(** Nothing goes to a slab reached with nothing positive remaining. *)
Lemma units_in_slab_not_positive (r : float) (p : Z) (s : Slab float) :
  (zero <? r)%float = false -> units_in_slab r p s = zero.
Proof.
  intros Hr. unfold units_in_slab, py_max, py_min. f_ops.
  destruct (upto s =? 0)%Z.
  - rewrite Hr. reflexivity.
  - destruct (float_of_int (upto s - p) <? r)%float eqn:Hc.
    + rewrite (ltb_below_not_positive r _ Hr Hc). reflexivity.
    + rewrite Hr. reflexivity.
Qed.

(** With nothing positive to allocate the loop makes one entry, of 0 units,
    and leaves. *)
Lemma bill_loop_nothing (u : float) (s : Slab float) (rest : list (Slab float)) :
  (u <=? zero)%float = true ->
  bill_loop (s :: rest) (initial_state u) =
  {| st_remaining := (u - zero)%float;
     st_energy_charge := (zero + zero * rate s)%float;
     st_slab_details :=
       [ {| d_slab_range := slab_range 0 s;
            d_units := zero;
            d_rate := rate s;
            d_charge := float_round2 (zero * rate s)%float |} ];
     st_prev_limit := upto s |}.
Proof.
  intros Hu. cbn [bill_loop]. cbn zeta. rewrite loop_body_remaining.
  unfold loop_body. cbn [initial_state st_remaining st_prev_limit st_slab_details
                         st_energy_charge app].
  rewrite (units_in_slab_not_positive u 0 s (leb_zero_not_positive u Hu)).
  f_ops. rewrite (leb_minus_zero u Hu). reflexivity.
Qed.

(** A slab without upper limit reached with a finite amount takes it and
    ends the loop. *)
Lemma bill_loop_unbounded (s : Slab float) (post : list (Slab float)) (st : LoopState float) :
  upto s = 0%Z ->
  is_finite (st_remaining st) = true ->
  bill_loop (s :: post) st = loop_body s st /\
  units_in_slab (st_remaining st) (st_prev_limit st) s = py_max zero (st_remaining st) /\
  (st_remaining st - py_max zero (st_remaining st) <=? zero)%float = true.
Proof.
  intros Hs Hf.
  assert (Hu : units_in_slab (st_remaining st) (st_prev_limit st) s =
               py_max zero (st_remaining st)).
  { unfold units_in_slab. rewrite Hs. reflexivity. }
  assert (He : (st_remaining st - py_max zero (st_remaining st) <=? zero)%float = true).
  { unfold py_max. f_ops. apply exhausts, Hf. }
  split; [| split; assumption].
  cbn [bill_loop]. cbn zeta. rewrite loop_body_remaining, Hu. f_ops. rewrite He. reflexivity.
Qed.

(** ** No consumption *)

(** C10. For a consumption of 0 (either zero of binary64) and slabs that are
    not empty, [slab_details] holds one entry, that of the first slab, with
    0 units; its charge, [round(0 * rate, 2)], is 0 exactly when the rate is
    finite (and NaN when the rate is an infinity or NaN). *)
Theorem zero_units_single_record
  (u : float) (s : Slab float) (rest : list (Slab float)) (f d g : float) :
  is_zero u = true ->
  slab_details (calculate_bill u (s :: rest) f d g) =
    [ {| d_slab_range := slab_range 0 s;
         d_units := zero;
         d_rate := rate s;
         d_charge := float_round2 (zero * rate s)%float |} ] /\
  is_zero (float_round2 (zero * rate s)%float) = is_finite (rate s).
Proof.
  intros Hu. split.
  - unfold calculate_bill. cbn [slab_details].
    rewrite (bill_loop_nothing u s rest (is_zero_leb_zero u Hu)). reflexivity.
  - destruct (is_finite (rate s)) eqn:Hf.
    + rewrite float_round2_zero; rewrite is_zero_zero_mul; exact Hf.
    + rewrite float_round2_not_finite_number.
      * rewrite is_zero_zero_mul. exact Hf.
      * revert Hf. f_spec.
        destruct (Prim2SF (rate s)) as [sr | sr | | sr mr er]; try discriminate; intros _;
          exact I.
Qed.

Lemma zero_units_single_record_witness :
  slab_details (calculate_bill (N := float) zero default_slabs
                  (of_int 50) (of_int 5) (of_int 5)) =
    [ {| d_slab_range := "1-100"; d_units := zero; d_rate := of_int 3; d_charge := zero |} ].
Proof.
  assert (Hz : is_zero zero = true) by reflexivity.
  pose proof (zero_units_single_record zero (mkSlab 100 (of_int 3))
                [mkSlab 200 (of_int 45 / of_int 10)%num; mkSlab 300 (of_int 6);
                 mkSlab 0 (of_int 8)]
                (of_int 50) (of_int 5) (of_int 5) Hz) as [T _].
  etransitivity; [exact T |]. vm_compute. reflexivity.
Defined.

(** C10 as stated fails: the charge of the entry is not 0 for every slab
    list; with a rate of infinity, which [prompt_float] accepts, it is
    NaN. *)
Lemma zero_units_single_record_counterexample :
  let b := calculate_bill (N := float) zero [mkSlab 0 infinity]
             (of_int 50) (of_int 5) (of_int 5) in
  map (@d_units float) (slab_details b) = [zero] /\
  map (fun r => is_nan (d_charge r)) (slab_details b) = [true] /\
  map (fun r => PrimFloat.eqb (d_charge r) zero) (slab_details b) = [false].
Proof.
  cbn zeta. repeat split; vm_compute; reflexivity.
Qed.

(** C4. For a consumption of 0 (either zero), slabs with finite rates and a
    finite [duty_pct / 100]: every entry holds 0 units and a charge of 0,
    the energy charge is 0.0, the duty is 0, the subtotal is the fixed
    charge rounded to 2 decimals ([round(0.0 + fixed_charge, 2)]; [0.0 + x]
    is [x], but for [x = -0.0], where it is [0.0]), the GST is
    [round(gst_pct / 100 * subtotal, 2)] and the total is [round(subtotal +
    gst, 2)].  With a fixed charge of 50 and 5% GST the total is 52.50. *)
Theorem zero_units_bill
  (u : float) (slabs : list (Slab float)) (f d g : float) :
  is_zero u = true ->
  forallb (fun s => is_finite (rate s)) slabs = true ->
  is_finite (d / of_int 100)%float = true ->
  let b := calculate_bill u slabs f d g in
  Forall (fun r => d_units r = zero /\ is_zero (d_charge r) = true) (slab_details b) /\
  energy_charge b = zero /\
  is_zero (duty b) = true /\
  subtotal b = float_round2 (zero + f)%float /\
  gst b = float_round2 (g / of_int 100 * subtotal b)%float /\
  total_bill b = float_round2 (subtotal b + gst b)%float /\
  total_bill (calculate_bill u default_slabs (of_int 50) d (of_int 5)) = cents 5250.
Proof.
  intros Hu Hr Hd. cbn zeta.
  assert (Hl : forall slabs', forallb (fun s => is_finite (rate s)) slabs' = true ->
            Forall (fun r => d_units r = zero /\ is_zero (d_charge r) = true)
              (st_slab_details (bill_loop slabs' (initial_state u))) /\
            st_energy_charge (bill_loop slabs' (initial_state u)) = zero).
  { intros [| s rest] Hr'.
    - split; [constructor | reflexivity].
    - cbn [forallb] in Hr'. apply andb_true_iff in Hr'. destruct Hr' as [Hs _].
      rewrite (bill_loop_nothing u s rest (is_zero_leb_zero u Hu)).
      cbn [st_slab_details st_energy_charge].
      assert (Hz : is_zero (zero * rate s)%float = true)
        by (rewrite is_zero_zero_mul; exact Hs).
      split.
      + constructor; [| constructor]. cbn [d_units d_charge].
        split; [reflexivity |]. rewrite float_round2_zero; exact Hz.
      + apply zero_add_zero, Hz. }
  assert (Hb : forall slabs' f' g', forallb (fun s => is_finite (rate s)) slabs' = true ->
            let b := calculate_bill u slabs' f' d g' in
            energy_charge b = zero /\ is_zero (duty b) = true /\
            subtotal b = float_round2 (zero + f')%float).
  { intros slabs' f' g' Hr'. destruct (Hl slabs' Hr') as [_ He].
    unfold calculate_bill. cbn [energy_charge duty subtotal]. rewrite He. f_ops.
    change (float_round2 zero) with zero.
    assert (Hz : is_zero (d / float_of_int 100 * zero)%float = true)
      by (apply is_zero_mul_zero; [exact Hd | reflexivity]).
    rewrite (float_round2_zero _ Hz), (zero_add_zero _ Hz).
    repeat split. exact Hz. }
  destruct (Hl slabs Hr) as [Hdet _].
  destruct (Hb slabs f g Hr) as (He & Hdu & Hsu).
  repeat split; try assumption.
  assert (Hdef : forallb (fun s : Slab float => is_finite (rate s)) default_slabs = true)
    by (vm_compute; reflexivity).
  destruct (Hb default_slabs (float_of_int 50) (float_of_int 5) Hdef) as (_ & _ & Hs50).
  pose proof (calculate_bill_steps u default_slabs (float_of_int 50) d (float_of_int 5))
    as (_ & _ & Hg & Ht).
  f_ops. rewrite Ht, Hg, Hs50. vm_compute. reflexivity.
Qed.

Lemma zero_units_bill_witness :
  let b := calculate_bill (N := float) zero default_slabs (cents 5630) (of_int 5) (of_int 5) in
  energy_charge b = zero /\ subtotal b = cents 5630 /\ gst b = cents 281 /\
  total_bill b = cents 5911.
Proof.
  cbn zeta.
  assert (Hz : is_zero zero = true) by reflexivity.
  assert (Hr : forallb (fun s : Slab float => is_finite (rate s)) default_slabs = true)
    by (vm_compute; reflexivity).
  assert (Hd : is_finite (of_int 5 / of_int 100)%float = true) by (vm_compute; reflexivity).
  pose proof (zero_units_bill zero default_slabs (cents 5630) (of_int 5) (of_int 5)
                Hz Hr Hd) as T.
  cbn zeta in T. destruct T as (_ & Te & _ & Ts & Tg & Tt & _).
  split; [exact Te |]. split; [rewrite Ts; vm_compute; reflexivity |].
  split; [rewrite Tg, Ts | rewrite Tt, Tg, Ts]; vm_compute; reflexivity.
Defined.

(** ** Invalid input *)




(** ** A slab without upper limit *)

(** C9. A slab without upper limit ([upto = 0]) at any place of the list,
    reached with a finite amount remaining, ends the loop: the slabs after
    it change nothing in the bill.  When the loop reaches it (no [break]
    among the slabs before it), every slab before it has its entry and the
    entry after those is the unbounded slab's, holding [max(0, remaining)],
    after which nothing remains; when the loop has left before it, the bill
    is that of the slabs before it. *)
Theorem unbounded_slab_anywhere_ends_allocation
  (u : float) (pre post : list (Slab float)) (s : Slab float) (f d g : float) :
  upto s = 0%Z ->
  let st := bill_loop pre (initial_state u) in
  is_finite (st_remaining st) = true ->
  let b := calculate_bill u (pre ++ s :: post) f d g in
  b = calculate_bill u (pre ++ [s]) f d g /\
  (stopped_in pre (initial_state u) = true -> b = calculate_bill u pre f d g) /\
  (stopped_in pre (initial_state u) = false ->
   slab_details b =
     st_slab_details st ++
     [ {| d_slab_range := slab_range (st_prev_limit st) s;
          d_units := py_max zero (st_remaining st);
          d_rate := rate s;
          d_charge := float_round2 (py_max zero (st_remaining st) * rate s)%float |} ] /\
   List.length (slab_details b) = S (List.length pre) /\
   st_prev_limit st = prev_limit_before 0 pre (List.length pre) /\
   (st_remaining st - py_max zero (st_remaining st) <=? zero)%float = true).
Proof.
  intros Hs st Hf. cbn zeta.
  destruct (bill_loop_unbounded s post st Hs Hf) as (Hp & Hu & He).
  destruct (bill_loop_unbounded s [] st Hs Hf) as (Hn & _ & _).
  assert (Hb : bill_loop (pre ++ s :: post) (initial_state u) =
               bill_loop (pre ++ [s]) (initial_state u)).
  { rewrite !bill_loop_app. destruct (stopped_in pre (initial_state u)); [reflexivity |].
    fold st. rewrite Hp, Hn. reflexivity. }
  split; [| split].
  - unfold calculate_bill. rewrite Hb. reflexivity.
  - intros Hstop. unfold calculate_bill. rewrite bill_loop_app, Hstop. reflexivity.
  - intros Hgo.
    assert (Hd : slab_details (calculate_bill u (pre ++ s :: post) f d g) =
                 st_slab_details (loop_body s st)).
    { unfold calculate_bill. cbn [slab_details]. rewrite bill_loop_app, Hgo. fold st.
      rewrite Hp. reflexivity. }
    destruct (records_not_stopped pre (initial_state u) Hgo) as [Hlen Hprev].
    fold st in Hlen, Hprev. cbn [initial_state st_slab_details st_prev_limit List.length] in *.
    rewrite Hd. unfold loop_body. cbn [st_slab_details]. rewrite Hu.
    split; [reflexivity |]. split; [| split; assumption].
    rewrite length_app, Hlen. cbn [List.length]. lia.
Qed.

Lemma unbounded_slab_anywhere_ends_allocation_witness :
  let pre := [mkSlab 100 (of_int 3); mkSlab 200 (of_int 45 / of_int 10)%num] in
  let b := calculate_bill (N := float) (of_int 250)
             (pre ++ mkSlab 0 (of_int 8) :: [mkSlab 300 (of_int 6)])
             (of_int 50) (of_int 5) (of_int 5) in
  map (@d_units float) (slab_details b) = [of_int 100; of_int 100; of_int 50] /\
  map (@d_slab_range float) (slab_details b) = ["1-100"; "101-200"; "201-above"]%string.
Proof.
  cbn zeta.
  assert (Hs : upto (mkSlab 0 (of_int 8 : float)) = 0%Z) by reflexivity.
  assert (Hf : is_finite
                 (st_remaining
                    (bill_loop [mkSlab 100 (of_int 3); mkSlab 200 (of_int 45 / of_int 10)%num]
                       (initial_state (of_int 250 : float)))) = true)
    by (vm_compute; reflexivity).
  assert (Hgo : stopped_in [mkSlab 100 (of_int 3); mkSlab 200 (of_int 45 / of_int 10)%num]
                  (initial_state (of_int 250 : float)) = false)
    by (vm_compute; reflexivity).
  pose proof (unbounded_slab_anywhere_ends_allocation (of_int 250)
                [mkSlab 100 (of_int 3); mkSlab 200 (of_int 45 / of_int 10)%num]
                [mkSlab 300 (of_int 6)] (mkSlab 0 (of_int 8))
                (of_int 50) (of_int 5) (of_int 5) Hs Hf) as T.
  cbn zeta in T. destruct T as (_ & _ & T). destruct (T Hgo) as (Td & _).
  rewrite Td. split; vm_compute; reflexivity.
Defined.

(** C9 as stated fails: with a consumption of infinity, which
    [prompt_float] accepts, the unbounded slab leaves [inf - inf], NaN,
    remaining; NaN does not compare [<= 0], and the slab after the
    unbounded one is visited and gets an entry. *)
Lemma unbounded_slab_anywhere_counterexample :
  let slabs := [mkSlab 100 (of_int 3); mkSlab 0 (of_int 8); mkSlab 300 (of_int 6)] in
  let b := calculate_bill (N := float) infinity slabs (of_int 50) (of_int 5) (of_int 5) in
  map (@d_slab_range float) (slab_details b) = ["1-100"; "101-above"; "1-300"]%string /\
  List.length (slab_details b) = 3%nat /\
  List.length
    (slab_details
       (calculate_bill (N := float) infinity (firstn 2 slabs)
          (of_int 50) (of_int 5) (of_int 5))) = 2%nat.
Proof.
  cbn zeta. repeat split; vm_compute; reflexivity.
Qed.

(** ** Exact values *)

Lemma digits2_pos_bounds (m : positive) :
  (2 ^ (Zpos (digits2_pos m) - 1) <= Zpos m < 2 ^ Zpos (digits2_pos m))%Z.
Proof.
  induction m as [m IH | m IH |]; cbn [digits2_pos].
  - rewrite Pos2Z.inj_succ.
    replace (Z.succ (Zpos (digits2_pos m)) - 1)%Z with (Zpos (digits2_pos m)) by lia.
    rewrite Z.pow_succ_r by lia.
    assert (E : (2 ^ Zpos (digits2_pos m) = 2 * 2 ^ (Zpos (digits2_pos m) - 1))%Z).
    { rewrite <- Z.pow_succ_r by lia. f_equal. lia. }
    lia.
  - rewrite Pos2Z.inj_succ.
    replace (Z.succ (Zpos (digits2_pos m)) - 1)%Z with (Zpos (digits2_pos m)) by lia.
    rewrite Z.pow_succ_r by lia.
    assert (E : (2 ^ Zpos (digits2_pos m) = 2 * 2 ^ (Zpos (digits2_pos m) - 1))%Z).
    { rewrite <- Z.pow_succ_r by lia. f_equal. lia. }
    lia.
  - cbn. lia.
Qed.

(** The mantissa of a valid binary64 number has at most 53 bits, and
    exactly 53 above the least exponent. *)
Lemma bounded_mantissa (m : positive) (e : Z) :
  bounded prec emax m e = true ->
  (Zpos m < 2 ^ 53)%Z /\ ((-1074 < e)%Z -> (2 ^ 52 <= Zpos m)%Z) /\ (-1074 <= e)%Z.
Proof.
  unfold bounded, canonical_mantissa, fexp. intros Hb.
  apply andb_true_iff in Hb. destruct Hb as [Hb _]. apply Z.eqb_eq in Hb.
  change (SpecFloat.emin prec emax) with (-1074)%Z in Hb. change prec with 53%Z in Hb.
  pose proof (digits2_pos_bounds m) as [Hl Hu].
  set (k := Zpos (digits2_pos m)) in *.
  assert (Hk : (k <= 53)%Z) by lia.
  split; [| split].
  - apply Z.lt_le_trans with (2 ^ k)%Z; [exact Hu |]. apply Z.pow_le_mono_r; lia.
  - intros He. assert (E : k = 53%Z) by lia. rewrite E in Hl. exact Hl.
  - lia.
Qed.

Lemma SF2Q_finite (sg : bool) (m : positive) (e : Z) :
  SF2Q (S754_finite sg m e) == (if sg then -1 else 1) * (inject_Z (Zpos m) * 2 ^ e).
Proof.
  assert (E : (match e with
               | Zneg p => Zpos m # (2 ^ p)
               | _ => inject_Z (Zpos m * 2 ^ e)
               end) == inject_Z (Zpos m) * 2 ^ e).
  { destruct e as [| p | p].
    - rewrite inject_Z_mult. rewrite Zpower_Qpower by lia. reflexivity.
    - rewrite inject_Z_mult. rewrite Zpower_Qpower by lia. reflexivity.
    - rewrite Qmake_Qdiv. unfold Qdiv. apply Qmult_comp; [reflexivity |].
      change (2 ^ Zneg p) with (/ (2 ^ Zpos p)).
      apply Qinv_comp. rewrite Pos2Z.inj_pow. rewrite Zpower_Qpower by lia. reflexivity. }
  cbn [SF2Q]. destruct sg; rewrite E; ring.
Qed.

Lemma two_power_pos (e : Z) : 0 < 2 ^ e.
Proof. apply Qpower_0_lt. reflexivity. Qed.

Lemma SF2Q_positive (m : positive) (e : Z) : 0 < SF2Q (S754_finite false m e).
Proof.
  rewrite SF2Q_finite. cbv iota. rewrite Qmult_1_l.
  apply Qmult_lt_0_compat; [| apply two_power_pos].
  change 0 with (inject_Z 0). rewrite <- Zlt_Qlt. lia.
Qed.

Lemma SF2Q_negative (m : positive) (e : Z) : SF2Q (S754_finite true m e) < 0.
Proof.
  pose proof (SF2Q_positive m e) as Hp.
  rewrite SF2Q_finite in *. cbv iota in *. lra.
Qed.

(** Order of two positive valid floats, from the comparison of the code. *)
Lemma SFltb_pos_lt (m1 m2 : positive) (e1 e2 : Z) :
  bounded prec emax m1 e1 = true -> bounded prec emax m2 e2 = true ->
  SFltb (S754_finite false m1 e1) (S754_finite false m2 e2) = true ->
  SF2Q (S754_finite false m1 e1) < SF2Q (S754_finite false m2 e2).
Proof.
  intros B1 B2 Hlt. rewrite !SF2Q_finite. cbv iota. rewrite !Qmult_1_l.
  destruct (bounded_mantissa m1 e1 B1) as (U1 & L1 & E1).
  destruct (bounded_mantissa m2 e2 B2) as (U2 & L2 & E2).
  unfold SFltb in Hlt. cbn [SFcompare] in Hlt.
  assert (Hk : forall k, (0 <= k)%Z -> (Zpos m1 < Zpos m2 * 2 ^ k)%Z ->
            inject_Z (Zpos m1) * 2 ^ e1 < inject_Z (Zpos m2) * 2 ^ (e1 + k)).
  { intros k Hk Hm. rewrite Qpower_plus by discriminate.
    assert (E : 2 ^ k == inject_Z (2 ^ k)) by (rewrite Zpower_Qpower by lia; reflexivity).
    rewrite E.
    setoid_replace (inject_Z (Zpos m1) * 2 ^ e1) with (2 ^ e1 * inject_Z (Zpos m1)) by ring.
    setoid_replace (inject_Z (Zpos m2) * (2 ^ e1 * inject_Z (2 ^ k)))
      with (2 ^ e1 * inject_Z (Zpos m2 * 2 ^ k)) by (rewrite inject_Z_mult; ring).
    apply Qmult_lt_l; [apply two_power_pos |].
    rewrite <- Zlt_Qlt. exact Hm. }
  destruct (Z.compare_spec e1 e2) as [E | E | E]; try discriminate.
  - subst e2. destruct (Pos.compare_cont Eq m1 m2) eqn:C; try discriminate.
    change (Pos.compare_cont Eq m1 m2) with (Pos.compare m1 m2) in C.
    pose proof (proj1 (Pos.compare_lt_iff m1 m2) C) as Hm.
    replace e1 with (e1 + 0)%Z at 2 by lia. apply Hk; [lia | rewrite Z.pow_0_r]. lia.
  - replace e2 with (e1 + (e2 - e1))%Z by lia. apply Hk; [lia |].
    assert (L : (2 ^ 52 <= Zpos m2)%Z) by (apply L2; lia).
    apply Z.lt_le_trans with (2 ^ 52 * 2 ^ 1)%Z; [exact U1 |].
    apply Z.mul_le_mono_nonneg; try lia. apply Z.pow_le_mono_r; lia.
Qed.

Lemma val_zero : val zero = 0.
Proof. reflexivity. Qed.

Lemma val_nonpos (x : float) : (x <=? zero)%float = true -> val x <= 0.
Proof.
  unfold val. f_spec.
  destruct (Prim2SF x) as [s | s | | s m e]; try (intros _; cbn [SF2Q]; lra).
  destruct s; cbn; [| discriminate].
  intros _. apply Qlt_le_weak, SF2Q_negative.
Qed.

Lemma val_nonneg (x : float) : (zero <=? x)%float = true -> 0 <= val x.
Proof.
  unfold val. f_spec.
  destruct (Prim2SF x) as [s | s | | s m e]; try (intros _; cbn [SF2Q]; lra).
  destruct s; cbn; [discriminate |].
  intros _. apply Qlt_le_weak, SF2Q_positive.
Qed.

Lemma val_positive (x : float) : (zero <? x)%float = true -> 0 <= val x.
Proof.
  unfold val. f_spec.
  destruct (Prim2SF x) as [s | s | | s m e]; try (intros _; cbn [SF2Q]; lra).
  destruct s; cbn; [discriminate |].
  intros _. apply Qlt_le_weak, SF2Q_positive.
Qed.

(** A positive float below a finite one has the smaller value. *)
Lemma val_lt (a b : float) :
  (zero <? a)%float = true -> (a <? b)%float = true -> is_finite b = true ->
  val a < val b.
Proof.
  unfold val. intros Ha Hab Hb.
  pose proof (Prim2SF_valid a) as Va. pose proof (Prim2SF_valid b) as Vb.
  revert Ha Hab Hb Va Vb. f_spec.
  destruct (Prim2SF a) as [sa | sa | | sa ma ea]; cbn; try destruct sa; try discriminate;
    destruct (Prim2SF b) as [sb | sb | | sb mb eb]; cbn; try destruct sb; try discriminate.
  intros _ Hab _ Va Vb. apply SFltb_pos_lt; assumption.
Qed.

(** A slab takes nothing negative and no more than what remains. *)
Lemma units_in_slab_val (r : float) (p : Z) (s : Slab float) :
  is_finite r = true -> 0 <= val r ->
  0 <= val (units_in_slab r p s) <= val r.
Proof.
  intros Hf Hr. unfold units_in_slab, py_max, py_min. f_ops.
  assert (Hmax : 0 <= val (if (zero <? r)%float then r else zero) <= val r).
  { destruct (zero <? r)%float; [| rewrite val_zero]; lra. }
  destruct (upto s =? 0)%Z; [exact Hmax |].
  destruct (float_of_int (upto s - p) <? r)%float eqn:Hc; [| exact Hmax].
  destruct (zero <? float_of_int (upto s - p))%float eqn:Hp.
  - pose proof (val_lt _ _ Hp Hc Hf) as Hlt.
    pose proof (val_positive _ Hp) as H0. lra.
  - rewrite val_zero. lra.
Qed.

(** ** Conservation of units *)

Lemma exact_sub_spec (x y : float) :
  exact_sub x y = true ->
  is_finite (x - y)%float = true /\ val (x - y)%float == val x - val y.
Proof.
  unfold exact_sub. intros He. apply andb_true_iff in He. destruct He as [Hf Hq].
  split; [exact Hf | apply Qeq_bool_iff, Hq].
Qed.

(** While no subtraction rounds, the entries hold what the loop was entered
    with, whether it ends at the unbounded slab or leaves before it. *)
Lemma records_allocated (slabs : list (Slab float)) :
  forall (r : float) (p : Z),
  is_finite r = true -> 0 <= val r ->
  ends_unbounded slabs = true ->
  subtractions_exact slabs r p = true ->
  allocated (records slabs r p) == val r.
Proof.
  induction slabs as [| slab rest IH]; intros r p Hf Hr Hend Hex.
  - discriminate.
  - cbn [records subtractions_exact] in *. cbn zeta in *. f_ops.
    pose proof (units_in_slab_val r p slab Hf Hr) as [Hu0 Hu1].
    apply andb_true_iff in Hex. destruct Hex as [Hex Hrest].
    destruct (exact_sub_spec _ _ Hex) as [Hf' Hv].
    unfold allocated. cbn [fold_right detail_of d_units].
    destruct (r - units_in_slab r p slab <=? zero)%float eqn:Hstop.
    + pose proof (val_nonpos _ Hstop) as Hn. cbn [fold_right]. lra.
    + destruct rest as [| s' rest'].
      * cbn [ends_unbounded] in Hend. apply Z.eqb_eq in Hend.
        destruct (bill_loop_unbounded slab []
                    {| st_remaining := r; st_energy_charge := zero;
                       st_slab_details := []; st_prev_limit := p |} Hend Hf)
          as (_ & Hu & He).
        cbn [st_remaining st_prev_limit] in Hu, He. rewrite <- Hu in He. congruence.
      * assert (Hr' : 0 <= val (r - units_in_slab r p slab)%float) by lra.
        pose proof (IH _ (upto slab) Hf' Hr' Hend Hrest) as Hi.
        unfold allocated in Hi. rewrite Hi. lra.
Qed.




(** ** Monotonicity *)

Lemma nondecreasing_nth (ts : list float) :
  nondecreasing ts = true ->
  forall i j : nat, (i <= j < List.length ts)%nat ->
  (nth i ts zero <=? nth j ts zero)%float = true.
Proof.
  induction ts as [| a rest IH]; intros Hs i j Hij; cbn [List.length] in Hij; [lia |].
  cbn [nondecreasing] in Hs. apply andb_true_iff in Hs. destruct Hs as [Ha Hrest].
  destruct i as [| i'].
  - change (nth 0 (a :: rest) zero) with a.
    apply (proj1 (forallb_forall _ _) Ha (nth j (a :: rest) zero)).
    apply nth_In. cbn [List.length]. lia.
  - destruct j as [| j']; [lia |]. cbn [nth]. apply IH; [exact Hrest | lia].
Qed.

Lemma default_totals_length (count : nat) : List.length (default_totals count) = count.
Proof. unfold default_totals. rewrite length_map, length_seq. reflexivity. Qed.

Lemma default_totals_nth (count i : nat) :
  (i < count)%nat -> nth i (default_totals count) zero = default_total (Z.of_nat i).
Proof.
  intros Hi. unfold default_totals.
  rewrite (nth_indep _ zero (default_total (Z.of_nat 0))) by (rewrite length_map, length_seq; lia).
  rewrite (map_nth (fun k => default_total (Z.of_nat k))), seq_nth by lia. reflexivity.
Qed.

(** Totals in order as a list are in order as a function of the units. *)
Lemma default_totals_in_order (count : nat) :
  nondecreasing (default_totals count) = true ->
  forall n1 n2 : Z, (0 <= n1)%Z -> (n1 <= n2)%Z -> (n2 < Z.of_nat count)%Z ->
  (default_total n1 <=? default_total n2)%float = true.
Proof.
  intros Hs n1 n2 H0 H12 H2.
  pose proof (nondecreasing_nth _ Hs (Z.to_nat n1) (Z.to_nat n2)) as Hn.
  rewrite default_totals_length in Hn.
  rewrite !default_totals_nth in Hn by lia. rewrite !Z2Nat.id in Hn by lia.
  apply Hn. lia.
Qed.

(** The totals for 0 to 1000 units, evaluated. *)
Lemma default_totals_nondecreasing : nondecreasing (default_totals 1001) = true.
Proof. vm_compute. reflexivity. Qed.



(** * The slabs after a break *)

(** X7. Once the loop has left through [break] within the slabs [pre], no
    slab after them is looked at: the bill is that of [pre] alone, whatever
    follows.  In every number system, binary64 included. *)
Theorem slabs_after_break_do_not_matter
  {N : Type} `{Number N} (u : N) (pre post : list (Slab N)) (f d g : N) :
  stopped_in pre (initial_state u) = true ->
  calculate_bill u (pre ++ post) f d g = calculate_bill u pre f d g.
Proof.
  intros Hs. unfold calculate_bill. rewrite bill_loop_app, Hs. reflexivity.
Qed.

Lemma slabs_after_break_do_not_matter_witness :
  calculate_bill (N := float) (of_int 150)
    ([mkSlab 100 (of_int 3); mkSlab 200 (of_int 45 / of_int 10)%num] ++
     [mkSlab 300 (of_int 6); mkSlab 0 (of_int 8)])
    (of_int 50) (of_int 5) (of_int 5) =
  calculate_bill (N := float) (of_int 150)
    [mkSlab 100 (of_int 3); mkSlab 200 (of_int 45 / of_int 10)%num]
    (of_int 50) (of_int 5) (of_int 5).
Proof.
  assert (Hs : stopped_in (N := float)
                 [mkSlab 100 (of_int 3); mkSlab 200 (of_int 45 / of_int 10)%num]
                 (initial_state (of_int 150)) = true) by (vm_compute; reflexivity).
  exact (@slabs_after_break_do_not_matter float float_Number (of_int 150) _
           [mkSlab 300 (of_int 6); mkSlab 0 (of_int 8)]
           (of_int 50) (of_int 5) (of_int 5) Hs).
Defined.

(** * main *)

Section MainLoop.
Context {N : Type} `{Number N}.
Variable to_int : N -> option Z.

(** What [prompt_float] returns is the default or does not compare below
    zero. *)
Lemma prompt_float_value (default : option N) (lines : list (Line N)) (v : N)
      (rest : list (Line N)) :
  prompt_float lines default = Some (v, rest) ->
  default = Some v \/ num_ltb v (of_int 0) = false.
Proof.
  intros Hp. destruct (prompt_float_some default lines v rest Hp) as (sk & raw & _ & _ & Ha).
  destruct raw as [| x |]; cbn [accepted] in Ha.
  - destruct default as [dv |]; [| discriminate]. left. exact Ha.
  - destruct (num_ltb x (of_int 0)) eqn:E; [discriminate |].
    injection Ha as <-. right. exact E.
  - destruct default; discriminate.
Qed.

Lemma ends_unbounded_app (body : list (Slab N)) (s : Slab N) :
  ends_unbounded (body ++ [s]) = (upto s =? 0)%Z.
Proof.
  induction body as [| a body IH]; [reflexivity |].
  cbn [app]. destruct body as [| b body']; [reflexivity |]. exact IH.
Qed.

(** Turns beyond the number of lines are never used. *)
Lemma read_slabs_loop_turns (t1 : nat) :
  forall (t2 : nat) (lines : list (Line N)) (acc : list (Slab N)),
  (List.length lines <= t1)%nat -> (List.length lines <= t2)%nat ->
  read_slabs_loop to_int t1 lines acc = read_slabs_loop to_int t2 lines acc.
Proof.
  induction t1 as [| t1 IH]; intros t2 lines acc H1 H2.
  - destruct lines; [| cbn [List.length] in H1; lia].
    destruct t2; reflexivity.
  - destruct t2 as [| t2].
    + destruct lines; [| cbn [List.length] in H2; lia]. reflexivity.
    + cbn [read_slabs_loop].
      destruct (prompt_float lines (Some (of_int 0))) as [[x lines1] |] eqn:P1; [| reflexivity].
      destruct (to_int x) as [up |]; [| reflexivity].
      destruct (prompt_float lines1 (Some (of_int 1))) as [[r lines2] |] eqn:P2;
        [| reflexivity].
      destruct (up =? 0)%Z; [reflexivity |].
      pose proof (prompt_float_shorter _ _ _ _ P1).
      pose proof (prompt_float_shorter _ _ _ _ P2).
      apply IH; lia.
Qed.

(** The slabs the loop appends: bounded ones, then one without upper
    limit. *)
Lemma read_slabs_loop_spec (turns : nat) :
  forall (lines : list (Line N)) (acc slabs : list (Slab N)) (rest : list (Line N)),
  read_slabs_loop to_int turns lines acc = Some (slabs, rest) ->
  exists body s,
    slabs = acc ++ body ++ [s] /\
    upto s = 0%Z /\
    Forall (fun x => upto x <> 0%Z) body /\
    Forall (fun x => rate x = of_int 1 \/ num_ltb (rate x) (of_int 0) = false) (body ++ [s]) /\
    (2 * List.length (body ++ [s]) + List.length rest <= List.length lines)%nat.
Proof.
  induction turns as [| turns IH]; intros lines acc slabs rest Hr; [discriminate |].
  cbn [read_slabs_loop] in Hr.
  destruct (prompt_float lines (Some (of_int 0))) as [[x lines1] |] eqn:P1; [| discriminate].
  destruct (to_int x) as [up |]; [| discriminate].
  destruct (prompt_float lines1 (Some (of_int 1))) as [[r lines2] |] eqn:P2; [| discriminate].
  pose proof (prompt_float_shorter _ _ _ _ P1) as L1.
  pose proof (prompt_float_shorter _ _ _ _ P2) as L2.
  assert (Hrate : rate (mkSlab up r) = of_int 1 \/ num_ltb (rate (mkSlab up r)) (of_int 0) = false).
  { cbn [rate]. destruct (prompt_float_value _ _ _ _ P2) as [E | E].
    - left. congruence.
    - right. exact E. }
  destruct (up =? 0)%Z eqn:E.
  - injection Hr as <- <-. apply Z.eqb_eq in E. exists [], (mkSlab up r).
    cbn [app List.length upto]. repeat split; try assumption.
    + constructor.
    + constructor; [exact Hrate | constructor].
    + lia.
  - apply IH in Hr. destruct Hr as (body & s & -> & Hs & Hb & Hrt & Hl).
    apply Z.eqb_neq in E. exists (mkSlab up r :: body), s.
    rewrite <- app_assoc. cbn [app List.length] in *.
    repeat split; try assumption.
    + constructor; [exact E | exact Hb].
    + constructor; [exact Hrate | exact Hrt].
    + lia.
Qed.
End MainLoop.

(** X2. The slab list [main] reads always ends with a slab without upper
    limit and has no other such slab; each rate is the default 1.0 or a
    number typed that does not compare below zero; each slab took at least
    two lines of input.  The upper limits are not checked for order.  The
    bound on the turns of the loop used in [read_slabs] changes no run: any
    bound that is at least the number of lines gives the same outcome, a
    result or none.  For any number system and any [int()], binary64 with
    [float_to_int] included. *)
Theorem read_slabs_ends_unbounded
  {N : Type} `{Number N} (to_int : N -> option Z)
  (lines : list (Line N)) (slabs : list (Slab N)) (rest : list (Line N)) :
  read_slabs to_int lines = Some (slabs, rest) ->
  (exists body s,
     slabs = body ++ [s] /\ upto s = 0%Z /\ Forall (fun x => upto x <> 0%Z) body) /\
  ends_unbounded slabs = true /\
  Forall (fun x => rate x = of_int 1 \/ num_ltb (rate x) (of_int 0) = false) slabs /\
  (2 * List.length slabs + List.length rest <= List.length lines)%nat /\
  (forall (turns : nat) (lines' : list (Line N)),
     (List.length lines' <= turns)%nat ->
     read_slabs_loop to_int turns lines' [] = read_slabs to_int lines').
Proof.
  intros Hr. unfold read_slabs in Hr.
  apply read_slabs_loop_spec in Hr. destruct Hr as (body & s & -> & Hs & Hb & Hrt & Hl).
  cbn [app] in *. split; [| split; [| split; [| split]]].
  - exists body, s. repeat split; assumption.
  - rewrite ends_unbounded_app. apply Z.eqb_eq, Hs.
  - exact Hrt.
  - exact Hl.
  - intros turns lines' Ht. unfold read_slabs. apply read_slabs_loop_turns; lia.
Qed.

Lemma read_slabs_ends_unbounded_witness :
  ends_unbounded [mkSlab 100 (of_int 3 : float); mkSlab 0 (of_int 1)] = true.
Proof.
  assert (Hr : read_slabs float_to_int
                 [Numeric (of_int 100); Malformed; Numeric (of_int 3); Blank; Blank;
                  Numeric (of_int 50)]
               = Some ([mkSlab 100 (of_int 3); mkSlab 0 (of_int 1)], [Numeric (of_int 50)]))
    by (vm_compute; reflexivity).
  exact (proj1 (proj2 (@read_slabs_ends_unbounded float float_Number float_to_int _ _ _ Hr))).
Defined.


